(** * Espresso global state: static tables and thread-local accessors

    A shallow embedding of [globals.c] and [thread_local_accessors.c]:
    the byte population-count table [bit_count], the PLA type registry
    [pla_types], the thread-local variables and the accessor functions that
    hand out pointers to them or assign them. *)

From Stdlib Require Import ZArith Ascii String List Lia.
From stdpp Require Import base decidable option numbers list strings gmap.

Open Scope string_scope.
Open Scope list_scope.
Open Scope Z_scope.

(** ** Static lookup tables ([globals.c]) *)

Module Tables.

(** [int bit_count[256]], entry by entry. *)
Definition bit_count : list Z := [
    0;1;1;2;1;2;2;3;1;2;2;3;2;3;3;4;1;2;2;3;2;3;3;4;2;3;3;4;3;4;4;5;
    1;2;2;3;2;3;3;4;2;3;3;4;3;4;4;5;2;3;3;4;3;4;4;5;3;4;4;5;4;5;5;6;
    1;2;2;3;2;3;3;4;2;3;3;4;3;4;4;5;2;3;3;4;3;4;4;5;3;4;4;5;4;5;5;6;
    2;3;3;4;3;4;4;5;3;4;4;5;4;5;5;6;3;4;4;5;4;5;5;6;4;5;5;6;5;6;6;7;
    1;2;2;3;2;3;3;4;2;3;3;4;3;4;4;5;2;3;3;4;3;4;4;5;3;4;4;5;4;5;5;6;
    2;3;3;4;3;4;4;5;3;4;4;5;4;5;5;6;3;4;4;5;4;5;5;6;4;5;5;6;5;6;6;7;
    2;3;3;4;3;4;4;5;3;4;4;5;4;5;5;6;3;4;4;5;4;5;5;6;4;5;5;6;5;6;6;7;
    3;4;4;5;4;5;5;6;4;5;5;6;5;6;6;7;4;5;5;6;5;6;6;7;5;6;6;7;6;7;7;8
  ].

(** The C expression [bit_count[v]]: defined for indices inside the array,
    undefined ([None]) outside of it. *)
Definition bit_count_at (v : Z) : option Z :=
  if (0 <=? v)%Z then bit_count !! Z.to_nat v else None.

(** The number of set bits among the eight low bits of [v], counted bit by
    bit; this is what the table is compared with. *)
Definition set_bits8 (v : Z) : Z :=
  Z.of_nat (length (filter (fun i : nat => Z.testbit v (Z.of_nat i) = true) (seq 0 8))).

(** Table-wide check used to settle the table by evaluation. *)
Definition bit_count_checked : bool :=
  forallb (fun n : nat =>
             bool_decide (bit_count !! n = Some (set_bits8 (Z.of_nat n))))
          (seq 0 256).

(** The elementary type masks are macros of [espresso.h], which is not
    among the given sources: the tables are stated over any choice of them. *)
Class type_masks := {
  F_type : Z;
  D_type : Z;
  R_type : Z;
  PLEASURE_type : Z;
  EQNTOTT_type : Z;
  KISS_type : Z;
  CONSTRAINTS_type : Z;
  SYMBOLIC_CONSTRAINTS_type : Z
}.

(** One initialiser [{key, value}] of [pla_types]. The struct is declared in
    [espresso.h]; [globals.c] initialises [key] with a string literal or with
    the constant 0, a null character pointer, written [None] here, and
    [value] with an [int]. *)
Record pla_types_struct := { key : option string; value : Z }.

#[global] Instance pla_types_struct_eq_dec : EqDecision pla_types_struct.
Proof. solve_decision. Defined.

(** Where a scan of the registry stops. *)
Inductive lookup_result :=
  | Recognized (e : pla_types_struct)
  | NotRecognized (sentinel : pla_types_struct)
  | NoSentinel.

(** Modelled from the spec: the lookup loop over [pla_types] lives in the
    command-line and PLA readers, outside the given sources. "Given a token,
    scan the ordered sequence from the start; return the first pair whose
    token matches exactly (case-sensitive, full string match); if the
    sentinel is reached first, report token not recognized." Running past
    the last initialiser without meeting a sentinel is [NoSentinel]. *)
Fixpoint scan (tbl : list pla_types_struct) (token : string) : lookup_result :=
  match tbl with
  | [] => NoSentinel
  | e :: rest =>
      match key e with
      | None => NotRecognized e
      | Some k => if String.eqb k token then Recognized e else scan rest token
      end
  end.

(** The pair [{0, 0}] that closes the initialiser list. *)
Definition sentinel : pla_types_struct := {| key := None; value := 0 |}.

(** No pair of [tbl] before position [i] stops a scan for [token]. *)
Definition passed (tbl : list pla_types_struct) (token : string) (i : nat) : Prop :=
  forall (j : nat) e', (j < i)%nat -> tbl !! j = Some e' ->
                       key e' <> None /\ key e' <> Some token.


(** A table [tbl] ends with the pair [s], and no earlier pair carries the
    key of [s]. *)
Definition terminated_by (s : pla_types_struct) (tbl : list pla_types_struct) : Prop :=
  exists entries, tbl = entries ++ [s] /\ Forall (fun e => key e <> key s) entries.


Section Registry.
Context {masks : type_masks}.

(** Modelled from the spec: the combined type macros of [espresso.h].
    "Masks for compound tokens are the bitwise OR of elementary type masks
    (a token combining three elementary type letters carries the OR of
    their three bit values)." *)
Definition FD_type : Z := Z.lor F_type D_type.
Definition FR_type : Z := Z.lor F_type R_type.
Definition DR_type : Z := Z.lor D_type R_type.
Definition FDR_type : Z := Z.lor (Z.lor F_type D_type) R_type.

(** [struct pla_types_struct pla_types[]]. *)
Definition pla_types : list pla_types_struct := [
    {| key := Some "-f"; value := F_type |};
    {| key := Some "-r"; value := R_type |};
    {| key := Some "-d"; value := D_type |};
    {| key := Some "-fd"; value := FD_type |};
    {| key := Some "-fr"; value := FR_type |};
    {| key := Some "-dr"; value := DR_type |};
    {| key := Some "-fdr"; value := FDR_type |};
    {| key := Some "-fc"; value := Z.lor F_type CONSTRAINTS_type |};
    {| key := Some "-rc"; value := Z.lor R_type CONSTRAINTS_type |};
    {| key := Some "-dc"; value := Z.lor D_type CONSTRAINTS_type |};
    {| key := Some "-fdc"; value := Z.lor FD_type CONSTRAINTS_type |};
    {| key := Some "-frc"; value := Z.lor FR_type CONSTRAINTS_type |};
    {| key := Some "-drc"; value := Z.lor DR_type CONSTRAINTS_type |};
    {| key := Some "-fdrc"; value := Z.lor FDR_type CONSTRAINTS_type |};
    {| key := Some "-pleasure"; value := PLEASURE_type |};
    {| key := Some "-eqn"; value := EQNTOTT_type |};
    {| key := Some "-eqntott"; value := EQNTOTT_type |};
    {| key := Some "-kiss"; value := KISS_type |};
    {| key := Some "-cons"; value := CONSTRAINTS_type |};
    {| key := Some "-scons"; value := SYMBOLIC_CONSTRAINTS_type |};
    {| key := None; value := 0 |}
  ].

(** Lookup of a token in the registry. *)
Definition lookup (token : string) : lookup_result := scan pla_types token.

(** The spec's reading of a type token: the letters after the dash name
    elementary types, [f], [d], [r] and [c] (constraints). *)
Definition letter_mask (c : ascii) : option Z :=
  if Ascii.eqb c "f" then Some F_type
  else if Ascii.eqb c "d" then Some D_type
  else if Ascii.eqb c "r" then Some R_type
  else if Ascii.eqb c "c" then Some CONSTRAINTS_type
  else None.

(** The OR of the masks of the letters, when all of them are type letters. *)
Fixpoint letters_mask (letters : string) : option Z :=
  match letters with
  | EmptyString => Some 0
  | String c rest =>
      match letter_mask c, letters_mask rest with
      | Some m, Some ms => Some (Z.lor m ms)
      | _, _ => None
      end
  end.


End Registry.

(** Sample masks on which the tables are run. *)
Definition sample_masks : type_masks := {|
  F_type := 1; D_type := 2; R_type := 4; PLEASURE_type := 8;
  EQNTOTT_type := 16; KISS_type := 128; CONSTRAINTS_type := 256;
  SYMBOLIC_CONSTRAINTS_type := 512
|}.



(** The number of set bits among the [width] low bits of [v]; [set_bits8]
    is the case of a byte. *)
Definition set_bits (width : nat) (v : Z) : Z :=
  Z.of_nat (length (filter (fun i : nat => Z.testbit v (Z.of_nat i) = true) (seq 0 width))).

(** The number of positions of [l] at which [f] holds. *)
Definition count_true (f : nat -> bool) (l : list nat) : Z :=
  Z.of_nat (length (filter (fun i : nat => f i = true) l)).

End Tables.

(** ** Thread-local variables ([globals.c]) and their accessors
       ([thread_local_accessors.c]) *)

Module ThreadLocal.

(** What [espresso.h] declares for the thread-local variables: the number
    of timing slots and the two working aggregates, whose layout belongs to
    the algorithm module. [zero_cube] and [zero_cdata] are the objects
    with every member zero. *)
Class working_types := {
  TIME_COUNT : nat;
  cube_struct : Type;
  cdata_struct : Type;
  zero_cube : cube_struct;
  zero_cdata : cdata_struct
}.

(** Threads are told apart by a number. *)
Definition tid := nat.

(** [unsigned int]: 32 bits, conversion wraps. *)
Definition UINT_WIDTH : Z := 32.
Definition to_uint (value : Z) : Z := value mod 2 ^ UINT_WIDTH.

(** [unsigned int debug]. *)
Inductive uint_var := var_debug.

(** The thread-local [bool] variables of [globals.c]. *)
Inductive bool_var :=
  | var_verbose_debug | var_echo_comments | var_echo_unknown_commands
  | var_force_irredundant | var_skip_make_sparse | var_kiss | var_pos
  | var_print_solution | var_recompute_onset | var_remove_essential
  | var_single_expand | var_summary | var_trace | var_unwrap_onset
  | var_use_random_order | var_use_super_gasp.

(** [struct cube_struct cube, temp_cube_save]. *)
Inductive cube_var := var_cube | var_temp_cube_save.

(** [struct cdata_struct cdata, temp_cdata_save]. *)
Inductive cdata_var := var_cdata | var_temp_cdata_save.

#[global] Instance bool_var_eq_dec : EqDecision bool_var.
Proof. solve_decision. Defined.
#[global] Instance cube_var_eq_dec : EqDecision cube_var.
Proof. solve_decision. Defined.
#[global] Instance cdata_var_eq_dec : EqDecision cdata_var.
Proof. solve_decision. Defined.

(** The address of a thread-local variable: the thread whose instance it
    is, and the variable. *)
Record pointer (V : Type) := Ptr { owner : tid; target : V }.
Arguments Ptr {V} owner target.
Arguments owner {V} p.
Arguments target {V} p.

(** The ten flags that have a pointer-getter and a setter. *)
Inductive flag :=
  | flag_verbose_debug | flag_trace | flag_summary | flag_remove_essential
  | flag_force_irredundant | flag_unwrap_onset | flag_single_expand
  | flag_use_super_gasp | flag_use_random_order | flag_skip_make_sparse.

Section Store.
Context {types : working_types}.

(** One thread's instance of every [_Thread_local] variable of
    [globals.c], under the variable's own name. *)
Record ThreadContext := {
  debug : Z;
  verbose_debug : bool;
  total_name : list (option string);
  total_time : list Z;
  total_calls : list Z;
  echo_comments : bool;
  echo_unknown_commands : bool;
  force_irredundant : bool;
  skip_make_sparse : bool;
  kiss : bool;
  pos : bool;
  print_solution : bool;
  recompute_onset : bool;
  remove_essential : bool;
  single_expand : bool;
  summary : bool;
  trace : bool;
  unwrap_onset : bool;
  use_random_order : bool;
  use_super_gasp : bool;
  filename : option string;
  cube : cube_struct;
  temp_cube_save : cube_struct;
  cdata : cdata_struct;
  temp_cdata_save : cdata_struct
}.

(** None of the variables has an initialiser: a thread starts with every
    one of them zero (0, false, null pointer, all-zero aggregate). *)
Definition zero_initialized : ThreadContext := {|
  debug := 0;
  verbose_debug := false;
  total_name := replicate TIME_COUNT None;
  total_time := replicate TIME_COUNT 0;
  total_calls := replicate TIME_COUNT 0;
  echo_comments := false;
  echo_unknown_commands := false;
  force_irredundant := false;
  skip_make_sparse := false;
  kiss := false;
  pos := false;
  print_solution := false;
  recompute_onset := false;
  remove_essential := false;
  single_expand := false;
  summary := false;
  trace := false;
  unwrap_onset := false;
  use_random_order := false;
  use_super_gasp := false;
  filename := None;
  cube := zero_cube;
  temp_cube_save := zero_cube;
  cdata := zero_cdata;
  temp_cdata_save := zero_cdata
|}.

(** Reading a [bool] variable of a context. *)
Definition read_bool (x : bool_var) (c : ThreadContext) : bool :=
  match x with
  | var_verbose_debug => verbose_debug c
  | var_echo_comments => echo_comments c
  | var_echo_unknown_commands => echo_unknown_commands c
  | var_force_irredundant => force_irredundant c
  | var_skip_make_sparse => skip_make_sparse c
  | var_kiss => kiss c
  | var_pos => pos c
  | var_print_solution => print_solution c
  | var_recompute_onset => recompute_onset c
  | var_remove_essential => remove_essential c
  | var_single_expand => single_expand c
  | var_summary => summary c
  | var_trace => trace c
  | var_unwrap_onset => unwrap_onset c
  | var_use_random_order => use_random_order c
  | var_use_super_gasp => use_super_gasp c
  end.

(** The assignment [debug = v]. *)
Definition write_debug (v : Z) (c : ThreadContext) : ThreadContext := {|
  debug := v;
  verbose_debug := verbose_debug c;
  total_name := total_name c;
  total_time := total_time c;
  total_calls := total_calls c;
  echo_comments := echo_comments c;
  echo_unknown_commands := echo_unknown_commands c;
  force_irredundant := force_irredundant c;
  skip_make_sparse := skip_make_sparse c;
  kiss := kiss c;
  pos := pos c;
  print_solution := print_solution c;
  recompute_onset := recompute_onset c;
  remove_essential := remove_essential c;
  single_expand := single_expand c;
  summary := summary c;
  trace := trace c;
  unwrap_onset := unwrap_onset c;
  use_random_order := use_random_order c;
  use_super_gasp := use_super_gasp c;
  filename := filename c;
  cube := cube c;
  temp_cube_save := temp_cube_save c;
  cdata := cdata c;
  temp_cdata_save := temp_cdata_save c
|}.

(** The assignment [x = v] to the [bool] variable [x]: the field of [x]
    takes [v], every other field keeps its value. *)
Definition write_bool (x : bool_var) (v : bool) (c : ThreadContext) : ThreadContext :=
  let now (y : bool_var) : bool := if decide (y = x) then v else read_bool y c in {|
  debug := debug c;
  verbose_debug := now var_verbose_debug;
  total_name := total_name c;
  total_time := total_time c;
  total_calls := total_calls c;
  echo_comments := now var_echo_comments;
  echo_unknown_commands := now var_echo_unknown_commands;
  force_irredundant := now var_force_irredundant;
  skip_make_sparse := now var_skip_make_sparse;
  kiss := now var_kiss;
  pos := now var_pos;
  print_solution := now var_print_solution;
  recompute_onset := now var_recompute_onset;
  remove_essential := now var_remove_essential;
  single_expand := now var_single_expand;
  summary := now var_summary;
  trace := now var_trace;
  unwrap_onset := now var_unwrap_onset;
  use_random_order := now var_use_random_order;
  use_super_gasp := now var_use_super_gasp;
  filename := filename c;
  cube := cube c;
  temp_cube_save := temp_cube_save c;
  cdata := cdata c;
  temp_cdata_save := temp_cdata_save c
|}.

Definition read_cube (x : cube_var) (c : ThreadContext) : cube_struct :=
  match x with var_cube => cube c | var_temp_cube_save => temp_cube_save c end.

Definition read_cdata (x : cdata_var) (c : ThreadContext) : cdata_struct :=
  match x with var_cdata => cdata c | var_temp_cdata_save => temp_cdata_save c end.

(** A whole-object store into [cube] or [temp_cube_save]. *)
Definition write_cube (x : cube_var) (v : cube_struct) (c : ThreadContext) : ThreadContext := {|
  debug := debug c;
  verbose_debug := verbose_debug c;
  total_name := total_name c;
  total_time := total_time c;
  total_calls := total_calls c;
  echo_comments := echo_comments c;
  echo_unknown_commands := echo_unknown_commands c;
  force_irredundant := force_irredundant c;
  skip_make_sparse := skip_make_sparse c;
  kiss := kiss c;
  pos := pos c;
  print_solution := print_solution c;
  recompute_onset := recompute_onset c;
  remove_essential := remove_essential c;
  single_expand := single_expand c;
  summary := summary c;
  trace := trace c;
  unwrap_onset := unwrap_onset c;
  use_random_order := use_random_order c;
  use_super_gasp := use_super_gasp c;
  filename := filename c;
  cube := if decide (x = var_cube) then v else cube c;
  temp_cube_save := if decide (x = var_temp_cube_save) then v else temp_cube_save c;
  cdata := cdata c;
  temp_cdata_save := temp_cdata_save c
|}.

(** A whole-object store into [cdata] or [temp_cdata_save]. *)
Definition write_cdata (x : cdata_var) (v : cdata_struct) (c : ThreadContext) : ThreadContext := {|
  debug := debug c;
  verbose_debug := verbose_debug c;
  total_name := total_name c;
  total_time := total_time c;
  total_calls := total_calls c;
  echo_comments := echo_comments c;
  echo_unknown_commands := echo_unknown_commands c;
  force_irredundant := force_irredundant c;
  skip_make_sparse := skip_make_sparse c;
  kiss := kiss c;
  pos := pos c;
  print_solution := print_solution c;
  recompute_onset := recompute_onset c;
  remove_essential := remove_essential c;
  single_expand := single_expand c;
  summary := summary c;
  trace := trace c;
  unwrap_onset := unwrap_onset c;
  use_random_order := use_random_order c;
  use_super_gasp := use_super_gasp c;
  filename := filename c;
  cube := cube c;
  temp_cube_save := temp_cube_save c;
  cdata := if decide (x = var_cdata) then v else cdata c;
  temp_cdata_save := if decide (x = var_temp_cdata_save) then v else temp_cdata_save c
|}.

(** The thread-local storage of the process: the contexts of the threads
    that have stored something; any other thread still has its variables
    as they were when it started. *)
Definition ctx (w : gmap tid ThreadContext) (t : tid) : ThreadContext :=
  default zero_initialized (w !! t).

(** Replace thread [t]'s context by [f] of it. *)
Definition update (t : tid) (f : ThreadContext -> ThreadContext)
    (w : gmap tid ThreadContext) : gmap tid ThreadContext :=
  <[t := f (ctx w t)]> w.

(** A C function body run by a thread: it knows the calling thread, may
    change the storage and returns a result. *)
Definition TL (A : Type) : Type :=
  tid -> gmap tid ThreadContext -> A * gmap tid ThreadContext.

Definition ret {A} (a : A) : TL A := fun _ w => (a, w).

Definition bind {A B} (m : TL A) (k : A -> TL B) : TL B :=
  fun self w => let '(a, w') := m self w in k a self w'.

(** [&x] for a thread-local [x]: the calling thread's instance. *)
Definition address_of {V} (x : V) : TL (pointer V) :=
  fun self w => (Ptr self x, w).

(** [x = v] for a thread-local [x]: a store into the calling thread's
    instance. *)
Definition assign (f : ThreadContext -> ThreadContext) : TL unit :=
  fun self w => (tt, update self f w).

(** Dereferencing: [*p] and [*p = v]. The pointer says whose instance. *)
Definition load_uint (p : pointer uint_var) : TL Z :=
  fun _ w => (debug (ctx w (owner p)), w).
Definition store_uint (p : pointer uint_var) (v : Z) : TL unit :=
  fun _ w => (tt, update (owner p) (write_debug (to_uint v)) w).
Definition load_bool (p : pointer bool_var) : TL bool :=
  fun _ w => (read_bool (target p) (ctx w (owner p)), w).
Definition store_bool (p : pointer bool_var) (v : bool) : TL unit :=
  fun _ w => (tt, update (owner p) (write_bool (target p) v) w).
Definition load_cube (p : pointer cube_var) : TL cube_struct :=
  fun _ w => (read_cube (target p) (ctx w (owner p)), w).
Definition store_cube (p : pointer cube_var) (v : cube_struct) : TL unit :=
  fun _ w => (tt, update (owner p) (write_cube (target p) v) w).
Definition load_cdata (p : pointer cdata_var) : TL cdata_struct :=
  fun _ w => (read_cdata (target p) (ctx w (owner p)), w).
Definition store_cdata (p : pointer cdata_var) (v : cdata_struct) : TL unit :=
  fun _ w => (tt, update (owner p) (write_cdata (target p) v) w).

(** *** [thread_local_accessors.c] *)

Definition get_cube : TL (pointer cube_var) := address_of var_cube.
Definition get_cdata : TL (pointer cdata_var) := address_of var_cdata.

Definition get_debug_ptr : TL (pointer uint_var) := address_of var_debug.
Definition set_debug (value : Z) : TL unit := assign (write_debug (to_uint value)).

Definition get_verbose_debug_ptr : TL (pointer bool_var) := address_of var_verbose_debug.
Definition set_verbose_debug (value : bool) : TL unit := assign (write_bool var_verbose_debug value).

Definition get_trace_ptr : TL (pointer bool_var) := address_of var_trace.
Definition set_trace (value : bool) : TL unit := assign (write_bool var_trace value).

Definition get_summary_ptr : TL (pointer bool_var) := address_of var_summary.
Definition set_summary (value : bool) : TL unit := assign (write_bool var_summary value).

Definition get_remove_essential_ptr : TL (pointer bool_var) := address_of var_remove_essential.
Definition set_remove_essential (value : bool) : TL unit := assign (write_bool var_remove_essential value).

Definition get_force_irredundant_ptr : TL (pointer bool_var) := address_of var_force_irredundant.
Definition set_force_irredundant (value : bool) : TL unit := assign (write_bool var_force_irredundant value).

Definition get_unwrap_onset_ptr : TL (pointer bool_var) := address_of var_unwrap_onset.
Definition set_unwrap_onset (value : bool) : TL unit := assign (write_bool var_unwrap_onset value).

Definition get_single_expand_ptr : TL (pointer bool_var) := address_of var_single_expand.
Definition set_single_expand (value : bool) : TL unit := assign (write_bool var_single_expand value).

Definition get_use_super_gasp_ptr : TL (pointer bool_var) := address_of var_use_super_gasp.
Definition set_use_super_gasp (value : bool) : TL unit := assign (write_bool var_use_super_gasp value).

Definition get_use_random_order_ptr : TL (pointer bool_var) := address_of var_use_random_order.
Definition set_use_random_order (value : bool) : TL unit := assign (write_bool var_use_random_order value).

Definition get_skip_make_sparse_ptr : TL (pointer bool_var) := address_of var_skip_make_sparse.
Definition set_skip_make_sparse (value : bool) : TL unit := assign (write_bool var_skip_make_sparse value).

(** Sequencing of calls is written [x ← m; k] and [m;; k]. *)
#[global] Instance TL_ret : MRet TL := @ret.
#[global] Instance TL_bind : MBind TL := fun A B k m => bind m k.

(** The setter and the pointer-getter of each flag, by name. *)
Definition flag_setter (f : flag) : bool -> TL unit :=
  match f with
  | flag_verbose_debug => set_verbose_debug
  | flag_trace => set_trace
  | flag_summary => set_summary
  | flag_remove_essential => set_remove_essential
  | flag_force_irredundant => set_force_irredundant
  | flag_unwrap_onset => set_unwrap_onset
  | flag_single_expand => set_single_expand
  | flag_use_super_gasp => set_use_super_gasp
  | flag_use_random_order => set_use_random_order
  | flag_skip_make_sparse => set_skip_make_sparse
  end.

Definition flag_ptr_getter (f : flag) : TL (pointer bool_var) :=
  match f with
  | flag_verbose_debug => get_verbose_debug_ptr
  | flag_trace => get_trace_ptr
  | flag_summary => get_summary_ptr
  | flag_remove_essential => get_remove_essential_ptr
  | flag_force_irredundant => get_force_irredundant_ptr
  | flag_unwrap_onset => get_unwrap_onset_ptr
  | flag_single_expand => get_single_expand_ptr
  | flag_use_super_gasp => get_use_super_gasp_ptr
  | flag_use_random_order => get_use_random_order_ptr
  | flag_skip_make_sparse => get_skip_make_sparse_ptr
  end.

(** The variable a flag is named after. *)
Definition flag_var (f : flag) : bool_var :=
  match f with
  | flag_verbose_debug => var_verbose_debug
  | flag_trace => var_trace
  | flag_summary => var_summary
  | flag_remove_essential => var_remove_essential
  | flag_force_irredundant => var_force_irredundant
  | flag_unwrap_onset => var_unwrap_onset
  | flag_single_expand => var_single_expand
  | flag_use_super_gasp => var_use_super_gasp
  | flag_use_random_order => var_use_random_order
  | flag_skip_make_sparse => var_skip_make_sparse
  end.

(** Every item of a thread's context, and what reading it gives. *)
Inductive item :=
  | item_debug
  | item_bool (x : bool_var)
  | item_total_name
  | item_total_time
  | item_total_calls
  | item_filename
  | item_cube (x : cube_var)
  | item_cdata (x : cdata_var).

Inductive item_value :=
  | val_uint (n : Z)
  | val_bool (b : bool)
  | val_names (l : list (option string))
  | val_times (l : list Z)
  | val_calls (l : list Z)
  | val_filename (s : option string)
  | val_cube (c : cube_struct)
  | val_cdata (c : cdata_struct).

Definition read_item (i : item) (c : ThreadContext) : item_value :=
  match i with
  | item_debug => val_uint (debug c)
  | item_bool x => val_bool (read_bool x c)
  | item_total_name => val_names (total_name c)
  | item_total_time => val_times (total_time c)
  | item_total_calls => val_calls (total_calls c)
  | item_filename => val_filename (filename c)
  | item_cube x => val_cube (read_cube x c)
  | item_cdata x => val_cdata (read_cdata x c)
  end.

(** A call of one of the eleven setters. *)
Inductive setter_call :=
  | call_set_debug (value : Z)
  | call_set_flag (f : flag) (value : bool).

Definition call (s : setter_call) : TL unit :=
  match s with
  | call_set_debug value => set_debug value
  | call_set_flag f value => flag_setter f value
  end.

(** The item a setter is named after and the value it is given, as an
    [unsigned int] or a [bool]. *)
Definition setter_item (s : setter_call) : item :=
  match s with
  | call_set_debug _ => item_debug
  | call_set_flag f _ => item_bool (flag_var f)
  end.

Definition setter_value (s : setter_call) : item_value :=
  match s with
  | call_set_debug value => val_uint (to_uint value)
  | call_set_flag _ value => val_bool value
  end.

(** What a thread can do through the accessor layer: call a setter, or
    store through the pointer a getter has just returned to it (for the
    two aggregates, change the object in place). *)
Inductive action :=
  | do_call (s : setter_call)
  | do_store_debug (v : Z)
  | do_store_flag (f : flag) (v : bool)
  | do_modify_cube (g : cube_struct -> cube_struct)
  | do_modify_cdata (g : cdata_struct -> cdata_struct).

Definition perform (a : action) : TL unit :=
  match a with
  | do_call s => call s
  | do_store_debug v => p ← get_debug_ptr; store_uint p v
  | do_store_flag f v => p ← flag_ptr_getter f; store_bool p v
  | do_modify_cube g => p ← get_cube; c ← load_cube p; store_cube p (g c)
  | do_modify_cdata g => p ← get_cdata; c ← load_cdata p; store_cdata p (g c)
  end.

(** Threads run one action at a time, in the order of the schedule. *)
Fixpoint run_schedule (sched : list (tid * action)) (w : gmap tid ThreadContext)
    : gmap tid ThreadContext :=
  match sched with
  | [] => w
  | (t, a) :: rest => run_schedule rest (snd (perform a t w))
  end.

(** The actions of thread [t] in a schedule, in order. *)
Fixpoint actions_of (t : tid) (sched : list (tid * action)) : list action :=
  match sched with
  | [] => []
  | (t', a) :: rest =>
      if decide (t' = t) then a :: actions_of t rest else actions_of t rest
  end.

(** Thread [t] running the actions [acts] with no other thread in between. *)
Definition alone (t : tid) (acts : list action) : list (tid * action) :=
  map (fun a => (t, a)) acts.

#[global] Instance flag_eq_dec : EqDecision flag.
Proof. solve_decision. Defined.

(** The items that [thread_local_accessors.c] gives access to: [debug], the
    ten flags with a setter and a pointer-getter, [cube] and [cdata]. The
    other six [bool] variables, the timing arrays, [filename] and the two
    saved aggregates have no accessor. *)
Definition has_accessor (i : item) : bool :=
  match i with
  | item_debug => true
  | item_bool x =>
      match x with
      | var_verbose_debug | var_trace | var_summary | var_remove_essential
      | var_force_irredundant | var_unwrap_onset | var_single_expand
      | var_use_super_gasp | var_use_random_order | var_skip_make_sparse => true
      | _ => false
      end
  | item_cube var_cube => true
  | item_cdata var_cdata => true
  | _ => false
  end.

(** What flag [f] holds after an action of its thread, having held [old]:
    a call of its setter and a store through its pointer give it the new
    value, any other action leaves it. *)
Definition flag_after (f : flag) (a : action) (old : bool) : bool :=
  match a with
  | do_call (call_set_flag g v) => if decide (g = f) then v else old
  | do_store_flag g v => if decide (g = f) then v else old
  | _ => old
  end.

(** What [debug] holds after an action of its thread. *)
Definition debug_after (a : action) (old : Z) : Z :=
  match a with
  | do_call (call_set_debug v) => to_uint v
  | do_store_debug v => to_uint v
  | _ => old
  end.

(** The value last stored by a sequence of actions, oldest first. *)
Definition last_flag_value (f : flag) (acts : list action) (init : bool) : bool :=
  fold_left (fun old a => flag_after f a old) acts init.

Definition last_debug_value (acts : list action) (init : Z) : Z :=
  fold_left (fun old a => debug_after a old) acts init.

End Store.

(** Sample instances on which the model is run. *)
Definition sample_types : working_types := {|
  TIME_COUNT := 16;
  cube_struct := list Z;
  cdata_struct := list Z;
  zero_cube := [0; 0];
  zero_cdata := [0]
|}.

End ThreadLocal.

(** ** Facts about the static tables *)

Module TablesFacts.
Import Tables.

Lemma bit_count_length : length bit_count = 256%nat.
Proof. reflexivity. Qed.

Lemma bit_count_checked_true : bit_count_checked = true.
Proof. vm_compute. reflexivity. Qed.

(** C1. For every byte value [v] in 0..255 the entry [bit_count[v]] of the
    256-entry table is the number of set bits of the 8-bit value [v];
    entry 255 is 8, entry 0 is 0 and entry 170 is 4. *)
Theorem bit_count_is_population_count (v : Z) :
  0 <= v < 256 ->
  bit_count_at v = Some (set_bits8 v)
  /\ length bit_count = 256%nat
  /\ bit_count_at 255 = Some 8
  /\ bit_count_at 0 = Some 0
  /\ bit_count_at 170 = Some 4.
Proof.
  intros Hv. split; [|repeat split; reflexivity].
  unfold bit_count_at.
  destruct (Z.leb_spec 0 v); [|lia].
  pose proof bit_count_checked_true as Hall.
  unfold bit_count_checked in Hall.
  rewrite forallb_forall in Hall.
  assert (Hin : In (Z.to_nat v) (seq 0 256)) by (apply in_seq; lia).
  apply Hall in Hin. apply bool_decide_eq_true in Hin.
  rewrite Z2Nat.id in Hin by lia. exact Hin.
Qed.

Lemma bit_count_is_population_count_witness :
  0 <= 170 < 256 /\ bit_count_at 170 = Some (set_bits8 170).
Proof.
  split; [lia|]. apply (bit_count_is_population_count 170). lia.
Defined.

(** *** The type registry *)

Section RegistryFacts.
Context {masks : type_masks}.

Lemma scan_stops (tbl : list pla_types_struct) (token : string) :
  match scan tbl token with
  | Recognized e =>
      exists i : nat, tbl !! i = Some e /\ key e = Some token /\ passed tbl token i
  | NotRecognized s =>
      exists i : nat, tbl !! i = Some s /\ key s = None /\ passed tbl token i
  | NoSentinel => passed tbl token (length tbl)
  end.
Proof.
  induction tbl as [|x tbl IH]; simpl.
  - intros j e' Hj. lia.
  - destruct (key x) as [k|] eqn:Hk.
    + destruct (String.eqb_spec k token) as [->|Hne].
      * exists 0%nat. repeat split; try done; lia.
      * assert (Hx : passed (x :: tbl) token 1%nat).
        { intros [|j] e' Hj He'; [|lia]. simpl in He'. simplify_eq.
          split; congruence. }
        assert (Hshift : forall i : nat, passed tbl token i -> passed (x :: tbl) token (S i)).
        { intros i Hi [|j] e' Hj He'; [apply (Hx 0%nat); [lia|done]|].
          apply (Hi j); [lia|done]. }
        destruct (scan tbl token) as [e|s|].
        -- destruct IH as (i & Hi & He & Hbefore).
           exists (S i). split; [exact Hi|]. split; [exact He|]. by apply Hshift.
        -- destruct IH as (i & Hi & He & Hbefore).
           exists (S i). split; [exact Hi|]. split; [exact He|]. by apply Hshift.
        -- auto.
    + exists 0%nat. repeat split; try done; lia.
Qed.

Lemma pla_types_length : length pla_types = 21%nat.
Proof. reflexivity. Qed.

Lemma pla_types_split :
  exists entries, pla_types = entries ++ [sentinel] /\ length entries = 20%nat
                  /\ Forall (fun e => key e <> None) entries.
Proof.
  exists (take 20 pla_types). split; [reflexivity|]. split; [reflexivity|].
  repeat constructor; discriminate.
Qed.

(** The null key sits at position 20 only. *)
Lemma pla_types_null_key (i : nat) (e : pla_types_struct) :
  pla_types !! i = Some e -> key e = None -> i = 20%nat /\ e = sentinel.
Proof.
  intros Hi He.
  do 21 (destruct i as [|i]; [simpl in Hi; simplify_eq; simpl in He; simplify_eq; done|]).
  rewrite lookup_ge_None_2 in Hi; [done|]. rewrite pla_types_length. lia.
Qed.

(** A pair of the registry is found by its own token: tokens are not
    repeated. *)
Lemma lookup_own_token (i : nat) (e : pla_types_struct) (token : string) :
  pla_types !! i = Some e -> key e = Some token -> lookup token = Recognized e.
Proof.
  intros Hi He.
  do 21 (destruct i as [|i]; [simpl in Hi; simplify_eq; simpl in He; simplify_eq; reflexivity|]).
  rewrite lookup_ge_None_2 in Hi; [done|]. rewrite pla_types_length. lia.
Qed.

Lemma lookup_Recognized (token : string) (e : pla_types_struct) :
  lookup token = Recognized e ->
  exists i : nat, pla_types !! i = Some e /\ key e = Some token
    /\ forall (j : nat) e', (j < i)%nat -> pla_types !! j = Some e' -> key e' <> Some token.
Proof.
  intros Hl. pose proof (scan_stops pla_types token) as Hs.
  unfold lookup in Hl. rewrite Hl in Hs.
  destruct Hs as (i & Hi & He & Hbefore).
  exists i. repeat split; try done.
  intros j e' Hj He'. by apply (Hbefore j).
Qed.

Lemma lookup_NotRecognized (token : string) :
  (forall e, e ∈ pla_types -> key e <> Some token) <->
  lookup token = NotRecognized sentinel.
Proof.
  split.
  - intros Hnone. pose proof (scan_stops pla_types token) as Hs.
    unfold lookup. destruct (scan pla_types token) as [e|s|].
    + destruct Hs as (i & Hi & He & _).
      destruct (Hnone e); [|done]. apply list_elem_of_lookup. eauto.
    + destruct Hs as (i & Hi & He & _).
      by destruct (pla_types_null_key i s Hi He) as [_ ->].
    + destruct (Hs 20%nat sentinel) as [Hk _]; [rewrite pla_types_length; lia|done|].
      by destruct Hk.
  - intros Hl e He Hk.
    apply list_elem_of_lookup in He as [i Hi].
    rewrite (lookup_own_token i e token Hi Hk) in Hl. discriminate.
Qed.

Lemma lookup_meets_sentinel (token : string) : lookup token <> NoSentinel.
Proof.
  intros Hl. pose proof (scan_stops pla_types token) as Hs.
  unfold lookup in Hl. rewrite Hl in Hs.
  destruct (Hs 20%nat sentinel) as [Hk _]; [rewrite pla_types_length; lia|done|].
  by destruct Hk.
Qed.



(** C2. The mask stored for a compound token is the bitwise OR of the masks
    of its constituent elementary types: for every pair whose token is a
    dash followed by type letters the mask is the OR of the letters' masks,
    each "with constraints" token carries the mask of its base token ORed
    with the constraints mask, and the pair for "-fdrc" carries the OR of
    the FD, R and CONSTRAINTS masks. *)
Theorem compound_masks_are_or :
  Forall (fun e => forall letters m,
            key e = Some (String "-" letters) ->
            letters_mask letters = Some m -> value e = m) pla_types
  /\ Forall (fun base => exists m,
               {| key := Some base; value := m |} ∈ pla_types
               /\ {| key := Some (base ++ "c")%string;
                     value := Z.lor m CONSTRAINTS_type |} ∈ pla_types)
            ["-f"; "-r"; "-d"; "-fd"; "-fr"; "-dr"; "-fdr"]
  /\ {| key := Some "-fdrc";
        value := Z.lor (Z.lor FD_type R_type) CONSTRAINTS_type |} ∈ pla_types.
Proof.
  split; [|split].
  - unfold pla_types, FD_type, FR_type, DR_type, FDR_type.
    repeat constructor; intros letters m Hk Hm; simpl in Hk;
      simplify_eq; cbn in Hm; simplify_eq;
      rewrite ?Z.lor_0_r, ?Z.lor_assoc; reflexivity.
  - repeat constructor; eexists; (split; [|simpl; apply list_elem_of_In; simpl; tauto]);
      apply list_elem_of_In; simpl; tauto.
  - apply list_elem_of_In. simpl. tauto.
Qed.

(** C7. Lookup scans from the start and returns the first pair whose token
    is exactly the given one; a token that no pair carries, such as "-zzz",
    makes the scan stop at the sentinel, and the lookup reports that as a
    result of its own; the scan never runs past the table. *)
Theorem lookup_first_match_or_sentinel (token : string) :
  (forall e, lookup token = Recognized e <->
     exists i : nat, pla_types !! i = Some e /\ key e = Some token
       /\ forall (j : nat) e', (j < i)%nat -> pla_types !! j = Some e' ->
                               key e' <> Some token)
  /\ ((forall e, e ∈ pla_types -> key e <> Some token) <->
      lookup token = NotRecognized sentinel)
  /\ lookup token <> NoSentinel
  /\ lookup "-zzz" = NotRecognized sentinel
  /\ lookup "-F" = NotRecognized sentinel
  /\ lookup "-fdrcx" = NotRecognized sentinel
  /\ lookup "-fd" = Recognized {| key := Some "-fd"; value := FD_type |}.
Proof.
  split; [|split; [|split]].
  - intros e. split.
    + apply lookup_Recognized.
    + intros (i & Hi & He & _). by apply (lookup_own_token i).
  - apply lookup_NotRecognized.
  - apply lookup_meets_sentinel.
  - repeat split; reflexivity.
Qed.

(** C8, as the code has it. The registry is an ordered sequence of twenty
    (token, bitmask) pairs, each with a token, closed by a sentinel pair
    whose token is the null pointer (no string at all) and whose mask is
    zero. *)
Theorem pla_types_terminated_by_null_key :
  terminated_by sentinel pla_types
  /\ last pla_types = Some sentinel
  /\ omap key pla_types =
       ["-f"; "-r"; "-d"; "-fd"; "-fr"; "-dr"; "-fdr";
        "-fc"; "-rc"; "-dc"; "-fdc"; "-frc"; "-drc"; "-fdrc";
        "-pleasure"; "-eqn"; "-eqntott"; "-kiss"; "-cons"; "-scons"].
Proof.
  split; [|split; reflexivity].
  destruct pla_types_split as (entries & Heq & _ & Hkeys).
  exists entries. split; [done|]. simpl. done.
Qed.


End RegistryFacts.

(** C8, as claimed: the sentinel's token is not the empty string. *)
Lemma pla_types_sentinel_not_empty_string :
  ~ terminated_by {| key := Some ""; value := 0 |} (@pla_types sample_masks).
Proof.
  intros (entries & Heq & _).
  assert (Hlast : last (@pla_types sample_masks) = Some {| key := Some ""; value := 0 |}).
  { rewrite Heq. apply last_snoc. }
  vm_compute in Hlast. discriminate.
Qed.


End TablesFacts.

(** ** Facts about the thread-local variables and their accessors *)

Module ThreadLocalFacts.
Import ThreadLocal.

Section StoreFacts.
Context {types : working_types}.

Implicit Types (w : gmap tid ThreadContext) (c : ThreadContext) (t self : tid).

Lemma ctx_empty t : ctx ∅ t = zero_initialized.
Proof. unfold ctx. by rewrite lookup_empty. Qed.

Lemma ctx_update_eq t f w : ctx (update t f w) t = f (ctx w t).
Proof. unfold update, ctx at 1. by rewrite lookup_insert_eq. Qed.

Lemma ctx_update_ne t t' f w : t <> t' -> ctx (update t f w) t' = ctx w t'.
Proof. intros Hne. unfold update, ctx. by rewrite lookup_insert_ne. Qed.

Lemma read_bool_write_bool (x y : bool_var) (v : bool) c :
  read_bool y (write_bool x v c) = if decide (y = x) then v else read_bool y c.
Proof. destruct y; reflexivity. Qed.

Lemma read_bool_zero (x : bool_var) : read_bool x zero_initialized = false.
Proof. by destruct x. Qed.

(** Reading through the pointer a getter returns reads the caller's own
    variable of that name. *)
Lemma read_debug_via_ptr self w :
  (p ← get_debug_ptr; load_uint p) self w = (debug (ctx w self), w).
Proof. reflexivity. Qed.

Lemma read_flag_via_ptr (f : flag) self w :
  (p ← flag_ptr_getter f; load_bool p) self w = (read_bool (flag_var f) (ctx w self), w).
Proof. by destruct f. Qed.

(** The items are all there is to a context. *)
Lemma read_item_ext c1 c2 :
  (forall i, read_item i c1 = read_item i c2) -> c1 = c2.
Proof.
  intros Hall. destruct c1, c2.
  pose proof (Hall item_debug) as Hd.
  pose proof (Hall item_total_name) as Hn.
  pose proof (Hall item_total_time) as Ht.
  pose proof (Hall item_total_calls) as Hc.
  pose proof (Hall item_filename) as Hf.
  pose proof (fun x => Hall (item_cube x)) as Hcube.
  pose proof (Hcube var_cube) as Hc1. pose proof (Hcube var_temp_cube_save) as Hc2.
  pose proof (fun x => Hall (item_cdata x)) as Hcdata.
  pose proof (Hcdata var_cdata) as Hd1. pose proof (Hcdata var_temp_cdata_save) as Hd2.
  pose proof (fun x => Hall (item_bool x)) as Hb.
  pose proof (Hb var_verbose_debug). pose proof (Hb var_echo_comments).
  pose proof (Hb var_echo_unknown_commands). pose proof (Hb var_force_irredundant).
  pose proof (Hb var_skip_make_sparse). pose proof (Hb var_kiss).
  pose proof (Hb var_pos). pose proof (Hb var_print_solution).
  pose proof (Hb var_recompute_onset). pose proof (Hb var_remove_essential).
  pose proof (Hb var_single_expand). pose proof (Hb var_summary).
  pose proof (Hb var_trace). pose proof (Hb var_unwrap_onset).
  pose proof (Hb var_use_random_order). pose proof (Hb var_use_super_gasp).
  clear Hall Hb Hcube Hcdata. simpl in *. by simplify_eq.
Qed.

(** A setter call stores into the caller's context. *)
Lemma call_is_update (s : setter_call) :
  exists g, forall self w, call s self w = (tt, update self g w)
    /\ read_item (setter_item s) (g (ctx w self)) = setter_value s
    /\ forall i, i <> setter_item s -> read_item i (g (ctx w self)) = read_item i (ctx w self).
Proof.
  destruct s as [value|f value].
  - exists (write_debug (to_uint value)). intros self w.
    split; [reflexivity|]. split; [reflexivity|].
    intros i Hi. by destruct i.
  - exists (write_bool (flag_var f) value). intros self w.
    split; [by destruct f|]. split.
    + simpl. rewrite read_bool_write_bool. by rewrite decide_True.
    + intros i Hi. destruct i; try reflexivity.
      simpl. rewrite read_bool_write_bool.
      rewrite decide_False; [done|]. intros ->. by apply Hi.
Qed.

(** Every action of a thread is a change of that thread's own context. *)
Lemma perform_is_update (a : action) :
  exists g, forall t w, perform a t w = (tt, update t g w).
Proof.
  destruct a as [s|v|f v|g|g].
  - destruct (call_is_update s) as (g & Hg). exists g. intros t w. apply Hg.
  - exists (write_debug (to_uint v)). reflexivity.
  - exists (write_bool (flag_var f) v). intros t w. by destruct f.
  - exists (fun c => write_cube var_cube (g (cube c)) c). reflexivity.
  - exists (fun c => write_cdata var_cdata (g (cdata c)) c). reflexivity.
Qed.

Lemma perform_other (a : action) t t' w :
  t <> t' -> ctx (snd (perform a t w)) t' = ctx w t'.
Proof.
  intros Hne. destruct (perform_is_update a) as (g & Hg).
  rewrite Hg. simpl. by apply ctx_update_ne.
Qed.

Lemma perform_own (a : action) t w1 w2 :
  ctx w1 t = ctx w2 t ->
  ctx (snd (perform a t w1)) t = ctx (snd (perform a t w2)) t.
Proof.
  intros Heq. destruct (perform_is_update a) as (g & Hg).
  rewrite !Hg. simpl. rewrite !ctx_update_eq. by rewrite Heq.
Qed.

(** A thread running alone sees only what its own context was. *)
Lemma alone_depends_on_own (acts : list action) t w1 w2 :
  ctx w1 t = ctx w2 t ->
  ctx (run_schedule (alone t acts) w1) t = ctx (run_schedule (alone t acts) w2) t.
Proof.
  revert w1 w2. induction acts as [|a acts IH]; intros w1 w2 Heq; simpl.
  - exact Heq.
  - apply IH. by apply perform_own.
Qed.

(** In any schedule a thread ends with the context it would have had
    running its own actions alone. *)
Lemma schedule_projection (sched : list (tid * action)) t w :
  ctx (run_schedule sched w) t =
  ctx (run_schedule (alone t (actions_of t sched)) w) t.
Proof.
  revert w. induction sched as [|[t' a] sched IH]; intros w; simpl.
  - reflexivity.
  - destruct (decide (t' = t)) as [->|Hne]; simpl.
    + apply IH.
    + rewrite IH. apply alone_depends_on_own. by apply perform_other.
Qed.

(** C3. On a freshly started thread, one that has not yet acted, every
    boolean flag reads false, the debug level reads 0, every timing counter
    (cumulative time and call count) reads zero and the filename is null,
    whatever the other threads have done. *)
Theorem fresh_thread_reads_defaults (t : tid) (sched : list (tid * action)) :
  actions_of t sched = [] ->
  let w := run_schedule sched ∅ in
  (forall x : bool_var, read_bool x (ctx w t) = false)
  /\ (forall f : flag, (p ← flag_ptr_getter f; load_bool p) t w = (false, w))
  /\ (p ← get_debug_ptr; load_uint p) t w = (0, w)
  /\ (forall i : nat, (i < TIME_COUNT)%nat ->
        total_time (ctx w t) !! i = Some 0 /\ total_calls (ctx w t) !! i = Some 0)
  /\ length (total_time (ctx w t)) = TIME_COUNT
  /\ length (total_calls (ctx w t)) = TIME_COUNT
  /\ filename (ctx w t) = None.
Proof.
  intros Hnone w.
  assert (Hctx : ctx w t = zero_initialized).
  { unfold w. rewrite schedule_projection, Hnone. simpl. apply ctx_empty. }
  split; [|split; [|split; [|split]]].
  - intros x. rewrite Hctx. apply read_bool_zero.
  - intros f. rewrite read_flag_via_ptr, Hctx. by rewrite read_bool_zero.
  - rewrite read_debug_via_ptr, Hctx. reflexivity.
  - intros i Hi. rewrite Hctx. simpl. split; by apply lookup_replicate_2.
  - rewrite Hctx. simpl. by rewrite !length_replicate.
Qed.

(** C4. Setting a flag to [X] and reading it back at once through its
    pointer-getter yields [X]: for the debug level and any unsigned [X]
    (0, 1 and 4294967295 among them), and for each of the ten boolean flags
    and either boolean. *)
Theorem set_then_read_back (X : Z) (f : flag) (b : bool) (self : tid)
    (w : gmap tid ThreadContext) :
  0 <= X < 2 ^ 32 ->
  fst ((set_debug X;; p ← get_debug_ptr; load_uint p) self w) = X
  /\ fst ((flag_setter f b;; p ← flag_ptr_getter f; load_bool p) self w) = b
  /\ fst ((set_debug 0;; p ← get_debug_ptr; load_uint p) self w) = 0
  /\ fst ((set_debug 1;; p ← get_debug_ptr; load_uint p) self w) = 1
  /\ fst ((set_debug 4294967295;; p ← get_debug_ptr; load_uint p) self w) = 4294967295.
Proof.
  intros HX.
  assert (Hdebug : forall v, 0 <= v < 2 ^ 32 ->
            fst ((set_debug v;; p ← get_debug_ptr; load_uint p) self w) = v).
  { intros v Hv.
    change (debug (ctx (update self (write_debug (to_uint v)) w) self) = v).
    rewrite ctx_update_eq. simpl. unfold to_uint, UINT_WIDTH.
    by apply Z.mod_small. }
  split; [by apply Hdebug|]. split; [|repeat split; apply Hdebug; lia].
  destruct f;
    match goal with
    | |- fst ((flag_setter ?f _;; _) _ _) = _ =>
        change (read_bool (flag_var f)
                  (ctx (update self (write_bool (flag_var f) b) w) self) = b)
    end;
    rewrite ctx_update_eq, read_bool_write_bool; by rewrite decide_True.
Qed.

(** C5. What one thread does through its accessors is invisible to every
    other thread: the context a thread ends with is determined by its own
    starting context and its own actions, whatever the others do in the two
    runs; after thread A has set its debug level to 5 and its trace flag,
    thread B still reads debug level 0 and trace false. *)
Theorem threads_do_not_interfere (A B : tid) (s1 s2 : list (tid * action))
    (w1 w2 : gmap tid ThreadContext) :
  A <> B ->
  ctx w1 B = ctx w2 B ->
  actions_of B s1 = actions_of B s2 ->
  ctx (run_schedule s1 w1) B = ctx (run_schedule s2 w2) B
  /\ (let w := snd ((set_debug 5;; set_trace true) A ∅) in
      (p ← get_debug_ptr; load_uint p) B w = (0, w)
      /\ (p ← get_trace_ptr; load_bool p) B w = (false, w)
      /\ (p ← get_debug_ptr; load_uint p) A w = (5, w)
      /\ (p ← get_trace_ptr; load_bool p) A w = (true, w)).
Proof.
  intros Hne Hctx Hacts. split.
  - rewrite (schedule_projection s1), (schedule_projection s2), Hacts.
    by apply alone_depends_on_own.
  - intros w.
    assert (HB : ctx w B = zero_initialized).
    { unfold w.
      change (ctx (update A (write_bool var_trace true)
                     (update A (write_debug (to_uint 5)) ∅)) B = zero_initialized).
      rewrite !ctx_update_ne by done. apply ctx_empty. }
    assert (HA : ctx w A = write_bool var_trace true
                             (write_debug (to_uint 5) zero_initialized)).
    { unfold w.
      change (ctx (update A (write_bool var_trace true)
                     (update A (write_debug (to_uint 5)) ∅)) A =
              write_bool var_trace true (write_debug (to_uint 5) zero_initialized)).
      rewrite !ctx_update_eq. by rewrite ctx_empty. }
    rewrite !read_debug_via_ptr.
    rewrite (read_flag_via_ptr flag_trace B), (read_flag_via_ptr flag_trace A).
    rewrite HA, HB. repeat split; reflexivity.
Qed.

(** C6. Two consecutive calls of [get_cube] on one thread return the same
    pointer, whatever the storage holds, and a write through the first is
    read through the second (and the other way round); the same holds for
    [get_cdata]. *)
Theorem getters_are_identity_stable (self : tid) (w w' : gmap tid ThreadContext)
    (v : cube_struct) (u : cdata_struct) :
  (exists p, (p1 ← get_cube; p2 ← get_cube; mret (p1, p2)) self w = ((p, p), w))
  /\ fst (get_cube self w) = fst (get_cube self w')
  /\ fst ((p1 ← get_cube; p2 ← get_cube; store_cube p1 v;; load_cube p2) self w) = v
  /\ fst ((p1 ← get_cube; p2 ← get_cube; store_cube p2 v;; load_cube p1) self w) = v
  /\ (exists q, (q1 ← get_cdata; q2 ← get_cdata; mret (q1, q2)) self w = ((q, q), w))
  /\ fst (get_cdata self w) = fst (get_cdata self w')
  /\ fst ((q1 ← get_cdata; q2 ← get_cdata; store_cdata q1 u;; load_cdata q2) self w) = u
  /\ fst ((q1 ← get_cdata; q2 ← get_cdata; store_cdata q2 u;; load_cdata q1) self w) = u.
Proof.
  assert (Hcube : read_cube var_cube
            (ctx (update self (write_cube var_cube v) w) self) = v).
  { by rewrite ctx_update_eq. }
  assert (Hcdata : read_cdata var_cdata
            (ctx (update self (write_cdata var_cdata u) w) self) = u).
  { by rewrite ctx_update_eq. }
  split; [by exists (Ptr self var_cube)|]. split; [reflexivity|].
  split; [exact Hcube|]. split; [exact Hcube|].
  split; [by exists (Ptr self var_cdata)|]. split; [reflexivity|].
  split; [exact Hcdata|exact Hcdata].
Qed.

(** C9. Every setter returns, having stored the value it was given into the
    variable it is named after, whatever the value (an unsigned value is
    stored as it is), and leaves every other item of the caller's context
    (the other flags, the cube descriptor and cube data, the saved slots,
    the timing counters and the filename) and every other thread's context
    unchanged. *)
Theorem setter_stores_one_item (s : setter_call) (self : tid)
    (w : gmap tid ThreadContext) :
  exists w', call s self w = (tt, w')
    /\ read_item (setter_item s) (ctx w' self) = setter_value s
    /\ (forall value, s = call_set_debug value -> 0 <= value < 2 ^ 32 ->
          debug (ctx w' self) = value)
    /\ (forall i, i <> setter_item s ->
          read_item i (ctx w' self) = read_item i (ctx w self))
    /\ (forall t, t <> self -> ctx w' t = ctx w t).
Proof.
  destruct (call_is_update s) as (g & Hg).
  destruct (Hg self w) as (Hcall & Hstored & Hframe).
  exists (update self g w). split; [exact Hcall|].
  rewrite ctx_update_eq. split; [exact Hstored|].
  split; [|split; [exact Hframe|]].
  - intros value -> Hvalue. simpl in Hstored.
    injection Hstored as ->. unfold to_uint, UINT_WIDTH. by apply Z.mod_small.
  - intros t Ht. by apply ctx_update_ne.
Qed.

End StoreFacts.

Lemma fresh_thread_reads_defaults_witness :
  @actions_of sample_types 2%nat [(1%nat, do_call (call_set_debug 5))] = []
  /\ filename
       (@ctx sample_types
          (run_schedule [(1%nat, do_call (call_set_debug 5))] ∅) 2%nat) = None.
Proof.
  split; [reflexivity|].
  apply (@fresh_thread_reads_defaults sample_types 2%nat
           [(1%nat, do_call (call_set_debug 5))]).
  reflexivity.
Defined.

Lemma set_then_read_back_witness :
  0 <= 4294967295 < 2 ^ 32
  /\ fst ((set_debug 4294967295;; p ← get_debug_ptr; load_uint p) 0%nat
            (∅ : gmap tid (@ThreadContext sample_types))) = 4294967295.
Proof.
  split; [lia|].
  apply (@set_then_read_back sample_types 4294967295 flag_trace true 0%nat ∅).
  lia.
Defined.

Lemma threads_do_not_interfere_witness :
  1%nat <> 2%nat
  /\ @ctx sample_types ∅ 2%nat = @ctx sample_types ∅ 2%nat
  /\ @actions_of sample_types 2%nat
       [(1%nat, do_call (call_set_debug 5));
        (1%nat, do_call (call_set_flag flag_trace true))]
     = @actions_of sample_types 2%nat []
  /\ @ctx sample_types
       (run_schedule
          [(1%nat, do_call (call_set_debug 5));
           (1%nat, do_call (call_set_flag flag_trace true))] ∅) 2%nat
     = @ctx sample_types (run_schedule [] ∅) 2%nat.
Proof.
  split; [lia|]. split; [reflexivity|]. split; [reflexivity|].
  apply (@threads_do_not_interfere sample_types 1%nat 2%nat
           [(1%nat, do_call (call_set_debug 5));
            (1%nat, do_call (call_set_flag flag_trace true))] [] ∅ ∅);
    [lia|reflexivity|reflexivity].
Defined.

End ThreadLocalFacts.

(** ** Further facts about the population-count table *)

Module TablesExtra.
Import Tables TablesFacts.

Lemma byte_cases (P : Z -> Prop) :
  Forall (fun n : nat => P (Z.of_nat n)) (seq 0 256) ->
  forall v, 0 <= v < 256 -> P v.
Proof.
  intros Hall v Hv. rewrite Forall_forall in Hall.
  rewrite <- (Z2Nat.id v) by lia. apply Hall.
  apply list_elem_of_In, in_seq. lia.
Qed.

Lemma bit_count_at_byte (v : Z) :
  0 <= v < 256 -> bit_count_at v = Some (set_bits8 v).
Proof.
  intros Hv. unfold bit_count_at.
  destruct (Z.leb_spec 0 v); [|lia].
  pose proof bit_count_checked_true as Hall.
  unfold bit_count_checked in Hall. rewrite forallb_forall in Hall.
  assert (Hin : In (Z.to_nat v) (seq 0 256)) by (apply in_seq; lia).
  apply Hall in Hin. apply bool_decide_eq_true in Hin.
  rewrite Z2Nat.id in Hin by lia. exact Hin.
Qed.

(** A byte is a value that masking with 255 leaves alone. *)
Lemma byte_range (v : Z) : 0 <= v < 256 <-> Z.land v 255 = v.
Proof.
  change 255 with (Z.ones 8). rewrite Z.land_ones by lia.
  change (2 ^ 8) with 256. split.
  - intros Hv. by apply Z.mod_small.
  - intros <-. apply Z.mod_pos_bound. lia.
Qed.

Lemma lor_byte (a b : Z) : 0 <= a < 256 -> 0 <= b < 256 -> 0 <= Z.lor a b < 256.
Proof.
  rewrite !byte_range. intros Ha Hb.
  by rewrite Z.land_lor_distr_l, Ha, Hb.
Qed.

Lemma land_byte (a b : Z) : 0 <= b < 256 -> 0 <= Z.land a b < 256.
Proof.
  rewrite !byte_range. intros Hb. by rewrite <- Z.land_assoc, Hb.
Qed.

Lemma count_true_cons (f : nat -> bool) (i : nat) (l : list nat) :
  count_true f (i :: l) = Z.b2z (f i) + count_true f l.
Proof.
  unfold count_true. rewrite filter_cons.
  destruct (f i); case_decide; simpl; try done; lia.
Qed.

Lemma count_true_app (f : nat -> bool) (l1 l2 : list nat) :
  count_true f (l1 ++ l2) = count_true f l1 + count_true f l2.
Proof.
  induction l1 as [|i l1 IH]; [reflexivity|].
  simpl. rewrite !count_true_cons, IH. lia.
Qed.

Lemma count_true_ext (f g : nat -> bool) (l : list nat) :
  (forall i, i ∈ l -> f i = g i) -> count_true f l = count_true g l.
Proof.
  induction l as [|i l IH]; intros Hfg; [reflexivity|].
  rewrite !count_true_cons, Hfg, IH; [reflexivity| |left].
  intros j Hj. apply Hfg. by right.
Qed.

Lemma count_true_fmap (f : nat -> bool) (h : nat -> nat) (l : list nat) :
  count_true f (h <$> l) = count_true (fun i => f (h i)) l.
Proof.
  induction l as [|i l IH]; [reflexivity|].
  rewrite fmap_cons, !count_true_cons, IH. reflexivity.
Qed.

Lemma count_true_or_and (f g : nat -> bool) (l : list nat) :
  count_true (fun i => f i || g i) l + count_true (fun i => f i && g i) l
  = count_true f l + count_true g l.
Proof.
  induction l as [|i l IH]; [reflexivity|].
  rewrite !count_true_cons. destruct (f i), (g i); simpl; lia.
Qed.

Lemma set_bits_count (width : nat) (v : Z) :
  set_bits width v = count_true (fun i => Z.testbit v (Z.of_nat i)) (seq 0 width).
Proof. reflexivity. Qed.

(** The byte at bit offset [8 * k] of a word carries the word's bits
    [8 * k .. 8 * k + 7]. *)
Lemma set_bits8_byte_of_word (k : nat) (w : Z) :
  set_bits8 (Z.land (Z.shiftr w (Z.of_nat (8 * k))) 255)
  = count_true (fun i => Z.testbit w (Z.of_nat i)) (seq (8 * k) 8).
Proof.
  change (set_bits8 ?b) with (set_bits 8 b). rewrite set_bits_count.
  replace (seq (8 * k) 8) with (Nat.add (8 * k) <$> seq 0 8)
    by (rewrite fmap_add_seq; f_equal; lia).
  rewrite count_true_fmap. apply count_true_ext.
  intros i Hi. apply list_elem_of_In, in_seq in Hi.
  rewrite Z.land_spec, Z.shiftr_spec by lia.
  change 255 with (Z.ones 8). rewrite Z.ones_spec_low by lia.
  rewrite andb_true_r. f_equal. lia.
Qed.

(** X1. For bytes [a] and [b] the entries at [a | b] and [a & b] add up to
    the entries at [a] and [b]; when [a] and [b] share no bit the entry at
    [a | b] is the sum of the two. *)
Theorem bit_count_or_and (a b : Z) :
  0 <= a < 256 -> 0 <= b < 256 ->
  exists x y o n,
    bit_count_at a = Some x /\ bit_count_at b = Some y
    /\ bit_count_at (Z.lor a b) = Some o /\ bit_count_at (Z.land a b) = Some n
    /\ o + n = x + y
    /\ (Z.land a b = 0 -> o = x + y).
Proof.
  intros Ha Hb.
  exists (set_bits8 a), (set_bits8 b), (set_bits8 (Z.lor a b)), (set_bits8 (Z.land a b)).
  rewrite !bit_count_at_byte by auto using lor_byte, land_byte.
  assert (Hsum : set_bits8 (Z.lor a b) + set_bits8 (Z.land a b)
                 = set_bits8 a + set_bits8 b).
  { change (set_bits8 ?v) with (set_bits 8 v). rewrite !set_bits_count.
    rewrite <- (count_true_or_and (fun i => Z.testbit a (Z.of_nat i))
                                  (fun i => Z.testbit b (Z.of_nat i))).
    f_equal; apply count_true_ext; intros i _.
    - apply Z.lor_spec.
    - apply Z.land_spec. }
  repeat split; try done.
  intros Hdisjoint. rewrite Hdisjoint in Hsum.
  change (set_bits8 0) with 0 in Hsum. lia.
Qed.

Lemma bit_count_or_and_witness :
  0 <= 170 < 256 /\ 0 <= 85 < 256 /\
  exists x y o n,
    bit_count_at 170 = Some x /\ bit_count_at 85 = Some y
    /\ bit_count_at (Z.lor 170 85) = Some o /\ bit_count_at (Z.land 170 85) = Some n
    /\ o + n = x + y
    /\ (Z.land 170 85 = 0 -> o = x + y).
Proof.
  split; [lia|]. split; [lia|]. apply (bit_count_or_and 170 85); lia.
Defined.

(** X2. Every entry of the table lies between 0 and 8; only entry 0 is 0
    and only entry 255 is 8. *)
Theorem bit_count_bounds (v : Z) :
  0 <= v < 256 ->
  exists x, bit_count_at v = Some x
    /\ 0 <= x <= 8 /\ (x = 0 <-> v = 0) /\ (x = 8 <-> v = 255).
Proof.
  intros Hv. exists (set_bits8 v). split; [by apply bit_count_at_byte|].
  revert v Hv. apply byte_cases.
  apply (bool_decide_unpack _). vm_compute. exact I.
Qed.

Lemma bit_count_bounds_witness :
  0 <= 255 < 256 /\
  exists x, bit_count_at 255 = Some x
    /\ 0 <= x <= 8 /\ (x = 0 <-> 255 = 0) /\ (x = 8 <-> 255 = 255).
Proof.
  split; [lia|]. apply (bit_count_bounds 255). lia.
Defined.

(** X3. The table follows the halving rule: the entry at [v] is the entry
    at [v >> 1] plus the low bit of [v]. *)
Theorem bit_count_halving (v : Z) :
  0 <= v < 256 ->
  exists x h, bit_count_at v = Some x /\ bit_count_at (Z.shiftr v 1) = Some h
    /\ x = h + Z.land v 1.
Proof.
  intros Hv. exists (set_bits8 v), (set_bits8 (Z.shiftr v 1)).
  rewrite !bit_count_at_byte; [|rewrite Z.shiftr_div_pow2 by lia;
    change (2 ^ 1) with 2; split; [apply Z.div_pos|apply Z.div_lt_upper_bound]; lia|done].
  repeat split.
  revert v Hv. apply byte_cases.
  apply (bool_decide_unpack _). vm_compute. exact I.
Qed.

Lemma bit_count_halving_witness :
  0 <= 171 < 256 /\
  exists x h, bit_count_at 171 = Some x /\ bit_count_at (Z.shiftr 171 1) = Some h
    /\ x = h + Z.land 171 1.
Proof.
  split; [lia|]. apply (bit_count_halving 171). lia.
Defined.

(** X4. For any word [w] the table entries at its four low bytes,
    [w & 255], [(w >> 8) & 255], [(w >> 16) & 255] and [(w >> 24) & 255],
    are all defined and add up to the number of set bits among the 32 low
    bits of [w]. *)
Theorem bit_count_sums_to_word_count (w : Z) :
  exists b0 b1 b2 b3,
    bit_count_at (Z.land w 255) = Some b0
    /\ bit_count_at (Z.land (Z.shiftr w 8) 255) = Some b1
    /\ bit_count_at (Z.land (Z.shiftr w 16) 255) = Some b2
    /\ bit_count_at (Z.land (Z.shiftr w 24) 255) = Some b3
    /\ b0 + b1 + b2 + b3 = set_bits 32 w.
Proof.
  assert (Hbyte : forall x, 0 <= Z.land x 255 < 256).
  { intros x. by apply land_byte. }
  eexists _, _, _, _.
  rewrite !bit_count_at_byte by apply Hbyte.
  repeat (split; [reflexivity|]).
  pose proof (set_bits8_byte_of_word 0 w) as H0.
  pose proof (set_bits8_byte_of_word 1 w) as H1.
  pose proof (set_bits8_byte_of_word 2 w) as H2.
  pose proof (set_bits8_byte_of_word 3 w) as H3.
  change (Z.shiftr w (Z.of_nat (8 * 0))) with w in H0.
  change (Z.of_nat (8 * 1)) with 8 in H1.
  change (Z.of_nat (8 * 2)) with 16 in H2.
  change (Z.of_nat (8 * 3)) with 24 in H3.
  rewrite H0, H1, H2, H3, set_bits_count.
  change (seq 0 32) with (seq 0 8 ++ seq 8 8 ++ seq 16 8 ++ seq 24 8).
  rewrite !count_true_app. simpl Nat.mul. lia.
Qed.

Section RegistryExtra.
Context {masks : type_masks}.

(** X5. No key occurs twice among the initialisers of [pla_types], the
    null key of the sentinel included: two positions with the same key are
    the same position. Every token is a dash followed by at least one more
    character. *)
Theorem pla_types_keys_distinct :
  NoDup (key <$> pla_types)
  /\ (forall (i j : nat) e1 e2,
        pla_types !! i = Some e1 -> pla_types !! j = Some e2 ->
        key e1 = key e2 -> i = j)
  /\ Forall (fun k => exists rest, k = String "-" rest /\ rest <> "")
            (omap key pla_types).
Proof.
  assert (Hnodup : NoDup (key <$> pla_types)).
  { apply (bool_decide_unpack _). vm_compute. exact I. }
  split; [exact Hnodup|]. split.
  - intros i j e1 e2 Hi Hj Hk.
    apply (NoDup_lookup (key <$> pla_types) i j (key e1)); [exact Hnodup| |].
    + by rewrite list_lookup_fmap, Hi.
    + by rewrite list_lookup_fmap, Hj, Hk.
  - simpl. repeat constructor; eexists; (split; [reflexivity|discriminate]).
Qed.

End RegistryExtra.

End TablesExtra.

(** ** Further facts about the accessors *)

Module ThreadLocalExtra.
Import ThreadLocal ThreadLocalFacts.

Section StoreExtra.
Context {types : working_types}.

Implicit Types (w : gmap tid ThreadContext) (c : ThreadContext) (t self : tid).

Lemma flag_var_inj (f g : flag) : flag_var f = flag_var g -> f = g.
Proof. destruct f, g; simpl; intros H; try reflexivity; discriminate H. Qed.

Lemma flag_ptr_getter_address (f : flag) :
  flag_ptr_getter f = address_of (flag_var f).
Proof. by destruct f. Qed.

Lemma flag_setter_assign (f : flag) (b : bool) :
  flag_setter f b = assign (write_bool (flag_var f) b).
Proof. by destruct f. Qed.

Lemma update_update t (f g : ThreadContext -> ThreadContext) w :
  update t g (update t f w) = update t (fun c => g (f c)) w.
Proof.
  unfold update at 1. rewrite ctx_update_eq.
  unfold update. by rewrite insert_insert_eq.
Qed.

(** What an action does to a flag and to [debug] of its own thread. *)
Lemma perform_flag_after (a : action) (f : flag) t w :
  read_bool (flag_var f) (ctx (snd (perform a t w)) t)
  = flag_after f a (read_bool (flag_var f) (ctx w t)).
Proof.
  assert (Hstore : forall g v,
            read_bool (flag_var f) (ctx (update t (write_bool (flag_var g) v) w) t)
            = if decide (g = f) then v else read_bool (flag_var f) (ctx w t)).
  { intros g v. rewrite ctx_update_eq, read_bool_write_bool.
    destruct (decide (g = f)) as [->|Hne].
    - by rewrite decide_True.
    - rewrite decide_False; [done|]. intros Heq. by apply flag_var_inj in Heq. }
  destruct a as [[v|g v]|v|g v|g|g]; simpl.
  - change (read_bool (flag_var f)
              (ctx (update t (write_debug (to_uint v)) w) t) = read_bool (flag_var f) (ctx w t)).
    rewrite ctx_update_eq. by destruct f.
  - rewrite flag_setter_assign. apply Hstore.
  - change (read_bool (flag_var f)
              (ctx (update t (write_debug (to_uint v)) w) t) = read_bool (flag_var f) (ctx w t)).
    rewrite ctx_update_eq. by destruct f.
  - rewrite flag_ptr_getter_address. apply Hstore.
  - change (read_bool (flag_var f)
              (ctx (update t (write_cube var_cube (g (cube (ctx w t)))) w) t)
            = read_bool (flag_var f) (ctx w t)).
    rewrite ctx_update_eq. by destruct f.
  - change (read_bool (flag_var f)
              (ctx (update t (write_cdata var_cdata (g (cdata (ctx w t)))) w) t)
            = read_bool (flag_var f) (ctx w t)).
    rewrite ctx_update_eq. by destruct f.
Qed.

Lemma perform_debug_after (a : action) t w :
  debug (ctx (snd (perform a t w)) t) = debug_after a (debug (ctx w t)).
Proof.
  destruct a as [[v|g v]|v|g v|g|g]; simpl.
  - change (debug (ctx (update t (write_debug (to_uint v)) w) t) = to_uint v).
    by rewrite ctx_update_eq.
  - rewrite flag_setter_assign.
    change (debug (ctx (update t (write_bool (flag_var g) v) w) t) = debug (ctx w t)).
    by rewrite ctx_update_eq.
  - change (debug (ctx (update t (write_debug (to_uint v)) w) t) = to_uint v).
    by rewrite ctx_update_eq.
  - rewrite flag_ptr_getter_address.
    change (debug (ctx (update t (write_bool (flag_var g) v) w) t) = debug (ctx w t)).
    by rewrite ctx_update_eq.
  - change (debug (ctx (update t (write_cube var_cube (g (cube (ctx w t)))) w) t)
            = debug (ctx w t)).
    by rewrite ctx_update_eq.
  - change (debug (ctx (update t (write_cdata var_cdata (g (cdata (ctx w t)))) w) t)
            = debug (ctx w t)).
    by rewrite ctx_update_eq.
Qed.

(** An action leaves the items without accessor as they were. *)
Lemma perform_keeps_unexposed (a : action) (i : item) t w :
  has_accessor i = false ->
  read_item i (ctx (snd (perform a t w)) t) = read_item i (ctx w t).
Proof.
  intros Hi. destruct a as [[v|f v]|v|f v|h|h].
  - change (read_item i (ctx (update t (write_debug (to_uint v)) w) t) = read_item i (ctx w t)).
    rewrite ctx_update_eq. by destruct i.
  - simpl. rewrite flag_setter_assign.
    change (read_item i (ctx (update t (write_bool (flag_var f) v) w) t) = read_item i (ctx w t)).
    rewrite ctx_update_eq. destruct i as [|x| | | | |x|x]; try reflexivity.
    simpl. rewrite read_bool_write_bool.
    rewrite decide_False; [done|]. intros ->. by destruct f.
  - change (read_item i (ctx (update t (write_debug (to_uint v)) w) t) = read_item i (ctx w t)).
    rewrite ctx_update_eq. by destruct i.
  - simpl. rewrite flag_ptr_getter_address.
    change (read_item i (ctx (update t (write_bool (flag_var f) v) w) t) = read_item i (ctx w t)).
    rewrite ctx_update_eq. destruct i as [|x| | | | |x|x]; try reflexivity.
    simpl. rewrite read_bool_write_bool.
    rewrite decide_False; [done|]. intros ->. by destruct f.
  - change (read_item i (ctx (update t (write_cube var_cube (h (cube (ctx w t)))) w) t)
            = read_item i (ctx w t)).
    rewrite ctx_update_eq. destruct i as [|x| | | | |x|x]; try reflexivity.
    by destruct x.
  - change (read_item i (ctx (update t (write_cdata var_cdata (h (cdata (ctx w t)))) w) t)
            = read_item i (ctx w t)).
    rewrite ctx_update_eq. destruct i as [|x| | | | |x|x]; try reflexivity.
    by destruct x.
Qed.

(** X6. Storing through the pointer a getter returns is the same as calling
    the setter of that name, for [debug] and for each of the ten flags, and
    what is stored through the pointer is read back through it: the
    boolean for a flag, and for [debug] the value as an [unsigned int],
    [X mod 2^32], which is [X] itself for [X] in 0..2^32-1. *)
Theorem store_through_pointer_is_setter (f : flag) (b : bool) (X : Z) (self : tid)
    (w : gmap tid ThreadContext) :
  (p ← flag_ptr_getter f; store_bool p b) self w = flag_setter f b self w
  /\ (p ← get_debug_ptr; store_uint p X) self w = set_debug X self w
  /\ fst ((p ← flag_ptr_getter f; store_bool p b;;
           q ← flag_ptr_getter f; load_bool q) self w) = b
  /\ fst ((p ← get_debug_ptr; store_uint p X;;
           q ← get_debug_ptr; load_uint q) self w) = X mod 2 ^ 32
  /\ (0 <= X < 2 ^ 32 ->
      fst ((p ← get_debug_ptr; store_uint p X;;
            q ← get_debug_ptr; load_uint q) self w) = X).
Proof.
  assert (Hdebug : fst ((p ← get_debug_ptr; store_uint p X;;
                         q ← get_debug_ptr; load_uint q) self w) = X mod 2 ^ 32).
  { change (debug (ctx (update self (write_debug (to_uint X)) w) self) = X mod 2 ^ 32).
    by rewrite ctx_update_eq. }
  split; [by destruct f|]. split; [reflexivity|]. split; [|split].
  - rewrite flag_ptr_getter_address.
    change (read_bool (flag_var f)
              (ctx (update self (write_bool (flag_var f) b) w) self) = b).
    rewrite ctx_update_eq, read_bool_write_bool. by rewrite decide_True.
  - exact Hdebug.
  - intros HX. rewrite Hdebug. by apply Z.mod_small.
Qed.

(** X7. The pointer-getters of two different flags return different
    pointers, and a store through one flag's pointer changes neither what
    is read through the other flag's pointer nor the debug level. *)
Theorem flag_pointers_do_not_alias (f g : flag) (b : bool) (self : tid)
    (w : gmap tid ThreadContext) :
  f <> g ->
  fst (flag_ptr_getter f self w) <> fst (flag_ptr_getter g self w)
  /\ fst ((p ← flag_ptr_getter f; store_bool p b;;
           q ← flag_ptr_getter g; load_bool q) self w)
     = fst ((q ← flag_ptr_getter g; load_bool q) self w)
  /\ fst ((p ← flag_ptr_getter f; store_bool p b;;
           q ← get_debug_ptr; load_uint q) self w)
     = fst ((q ← get_debug_ptr; load_uint q) self w).
Proof.
  intros Hne. rewrite !flag_ptr_getter_address. split; [|split].
  - simpl. intros Heq. injection Heq as Heq. by apply flag_var_inj in Heq.
  - change (read_bool (flag_var g)
              (ctx (update self (write_bool (flag_var f) b) w) self)
            = read_bool (flag_var g) (ctx w self)).
    rewrite ctx_update_eq, read_bool_write_bool.
    rewrite decide_False; [done|]. intros Heq. by apply flag_var_inj in Heq.
  - change (debug (ctx (update self (write_bool (flag_var f) b) w) self)
            = debug (ctx w self)).
    by rewrite ctx_update_eq.
Qed.

(** X8. Whatever the threads do through the accessors, the variables that
    have no accessor keep their values in every thread: the six other
    [bool] variables, the timing arrays, [filename], [temp_cube_save] and
    [temp_cdata_save]. *)
Theorem accessors_keep_unexposed_items (sched : list (tid * action))
    (w : gmap tid ThreadContext) (t : tid) (i : item) :
  has_accessor i = false ->
  read_item i (ctx (run_schedule sched w) t) = read_item i (ctx w t).
Proof.
  intros Hi. revert w. induction sched as [|[t' a] sched IH]; intros w; simpl.
  - reflexivity.
  - rewrite IH. destruct (decide (t' = t)) as [->|Hne].
    + by apply perform_keeps_unexposed.
    + by rewrite perform_other.
Qed.

(** X9. In any schedule a thread reads, for each flag and for the debug
    level, the value it stored last itself, by setter or through the
    pointer, or the value it started with if it stored none; what the other
    threads do in between makes no difference. *)
Theorem thread_reads_its_last_store (sched : list (tid * action))
    (w : gmap tid ThreadContext) (t : tid) (f : flag) :
  let w' := run_schedule sched w in
  (p ← flag_ptr_getter f; load_bool p) t w'
  = (last_flag_value f (actions_of t sched) (read_bool (flag_var f) (ctx w t)), w')
  /\ (p ← get_debug_ptr; load_uint p) t w'
     = (last_debug_value (actions_of t sched) (debug (ctx w t)), w').
Proof.
  intros w'. rewrite read_flag_via_ptr, read_debug_via_ptr.
  assert (Hboth :
    read_bool (flag_var f) (ctx w' t)
    = last_flag_value f (actions_of t sched) (read_bool (flag_var f) (ctx w t))
    /\ debug (ctx w' t) = last_debug_value (actions_of t sched) (debug (ctx w t))).
  { unfold w'. clear w'. revert w.
    induction sched as [|[t' a] sched IH]; intros w; simpl.
    - by split.
    - destruct (IH (snd (perform a t' w))) as [IHf IHd].
      rewrite IHf, IHd. destruct (decide (t' = t)) as [->|Hne].
      + unfold last_flag_value, last_debug_value. simpl.
        by rewrite perform_flag_after, perform_debug_after.
      + by rewrite perform_other. }
  destruct Hboth as [-> ->]. by split.
Qed.

(** X10. Two setter calls for different variables can be made in either
    order: the storage ends the same. *)
Theorem setters_commute (s1 s2 : setter_call) (self : tid)
    (w : gmap tid ThreadContext) :
  setter_item s1 <> setter_item s2 ->
  (call s1;; call s2) self w = (call s2;; call s1) self w.
Proof.
  intros Hne.
  assert (Hflags : forall f g a b c, f <> g ->
            write_bool (flag_var g) b (write_bool (flag_var f) a c)
            = write_bool (flag_var f) a (write_bool (flag_var g) b c)).
  { intros f g a b c Hfg. apply read_item_ext. intros i.
    destruct i as [|x| | | | |x|x]; try reflexivity.
    simpl. rewrite !read_bool_write_bool.
    destruct (decide (x = flag_var g)) as [->|]; [|done].
    destruct (decide (flag_var g = flag_var f)) as [Heq|]; [|done].
    apply flag_var_inj in Heq. by destruct Hfg. }
  destruct s1 as [v1|f1 b1], s2 as [v2|f2 b2]; simpl in *; try done.
  - rewrite flag_setter_assign.
    change ((tt, update self (write_bool (flag_var f2) b2)
                   (update self (write_debug (to_uint v1)) w))
            = (tt, update self (write_debug (to_uint v1))
                     (update self (write_bool (flag_var f2) b2) w))).
    by rewrite !update_update.
  - rewrite flag_setter_assign.
    change ((tt, update self (write_debug (to_uint v2))
                   (update self (write_bool (flag_var f1) b1) w))
            = (tt, update self (write_bool (flag_var f1) b1)
                     (update self (write_debug (to_uint v2)) w))).
    by rewrite !update_update.
  - rewrite !flag_setter_assign.
    change ((tt, update self (write_bool (flag_var f2) b2)
                   (update self (write_bool (flag_var f1) b1) w))
            = (tt, update self (write_bool (flag_var f1) b1)
                     (update self (write_bool (flag_var f2) b2) w))).
    rewrite !update_update. unfold update.
    rewrite Hflags; [done|]. intros ->. by apply Hne.
Qed.

End StoreExtra.

Lemma flag_pointers_do_not_alias_witness :
  flag_trace <> flag_summary
  /\ fst (@flag_ptr_getter sample_types flag_trace 0%nat ∅)
     <> fst (@flag_ptr_getter sample_types flag_summary 0%nat ∅).
Proof.
  split; [discriminate|].
  apply (@flag_pointers_do_not_alias sample_types flag_trace flag_summary true 0%nat ∅).
  discriminate.
Defined.

Lemma accessors_keep_unexposed_items_witness :
  has_accessor item_filename = false
  /\ read_item item_filename
       (@ctx sample_types
          (run_schedule [(1%nat, do_call (call_set_flag flag_trace true))] ∅) 1%nat)
     = read_item item_filename (@ctx sample_types ∅ 1%nat).
Proof.
  split; [reflexivity|].
  apply (@accessors_keep_unexposed_items sample_types
           [(1%nat, do_call (call_set_flag flag_trace true))] ∅ 1%nat item_filename).
  reflexivity.
Defined.

Lemma setters_commute_witness :
  setter_item (call_set_debug 3) <> setter_item (call_set_flag flag_trace true)
  /\ (@call sample_types (call_set_debug 3);; call (call_set_flag flag_trace true)) 0%nat ∅
     = (@call sample_types (call_set_flag flag_trace true);; call (call_set_debug 3)) 0%nat ∅.
Proof.
  split; [discriminate|].
  apply (@setters_commute sample_types (call_set_debug 3)
           (call_set_flag flag_trace true) 0%nat ∅).
  discriminate.
Defined.

End ThreadLocalExtra.
